(** * putchard: the character-output extension of the Kaleidoscope JIT

    A shallow embedding of [libExt.c]:

<<
    extern double putchard(double X) {
        char a = (char)X;
        putchar(a);
        fflush(stdout);
        return 0;
    }
>>

    The development has three layers.

    - [CNum]: the numbers of the C program.  A [double] is a primitive
      binary64 float; the conversion [(char)X] is written out as a
      truncation toward zero followed by an 8-bit narrowing; what the C
      implementation leaves open (signedness of [char], the result of a
      conversion that overflows) is a parameter, the [Host].
    - [Stdio]: the two library calls of the program as a small monad of
      requests to the platform, an interface [Platform] for whatever
      answers them, and one instance, a buffered stream in the sense of
      ISO C 7.21 that can refuse writes.
    - [LibExt]: the function itself. *)

From Stdlib Require Import ZArith List Bool Lia Ascii.
From Stdlib Require Import PrimFloat SpecFloat FloatOps Uint63.
Import ListNotations.

Open Scope Z_scope.

(* ===================================================================== *)
(** ** Numbers *)
(* ===================================================================== *)

Module CNum.

(** [double] is IEEE 754 binary64. *)
Definition double : Set := float.

(** Integer part of a float: the value of [S754_finite s m e] is
    [(-1)^s * m * 2^e]; for [e < 0] the shift drops the fractional bits of
    the magnitude, so the result is rounded toward zero.  NaN and the
    infinities have no integer part. *)
Definition trunc (X : spec_float) : option Z :=
  match X with
  | S754_zero _ => Some 0
  | S754_finite s m e =>
      let mag := Z.shiftl (Z.pos m) e in
      Some (if s then - mag else mag)
  | S754_infinity _ => None
  | S754_nan => None
  end.

Definition is_finite (X : double) : bool :=
  match Prim2SF X with
  | S754_zero _ | S754_finite _ _ _ => true
  | _ => false
  end.

(** Two's-complement narrowing to [n] bits. *)
Definition zero_ext (n z : Z) : Z := z mod 2 ^ n.

Definition sign_ext (n z : Z) : Z :=
  let r := z mod 2 ^ n in
  if r <? 2 ^ (n - 1) then r else r - 2 ^ n.

(** What the C implementation decides: whether plain [char] is signed, and
    what the double-to-integer conversion yields when the integer part of
    its operand is not representable (ISO C 6.3.1.4 leaves that case
    undefined; a processor returns a fixed pattern or saturates). *)
Record Host : Type := mkHost {
  char_signed : bool;
  conv_invalid : double -> Z
}.

Definition CHAR_MIN (h : Host) : Z := if char_signed h then -128 else 0.
Definition CHAR_MAX (h : Host) : Z := if char_signed h then 127 else 255.

(** The conversion is carried out in an [int]-sized register, signed when
    the target type is.  It is exact when the integer part fits: in
    [-2^31, 2^31) towards a signed [char], in [0, 2^31) towards an unsigned
    one. *)
Definition conv_exact (h : Host) (z : Z) : bool :=
  ((if char_signed h then - 2 ^ 31 else 0) <=? z) && (z <? 2 ^ 31).

Definition fp_to_int (h : Host) (X : double) : Z :=
  match trunc (Prim2SF X) with
  | Some z => if conv_exact h z then z else conv_invalid h X
  | None => conv_invalid h X
  end.

(** Narrowing of an integer to plain [char]. *)
Definition narrow_char (h : Host) (z : Z) : Z :=
  if char_signed h then sign_ext 8 z else zero_ext 8 z.

(** [(char)X]. *)
Definition cast_double_char (h : Host) (X : double) : Z :=
  narrow_char h (fp_to_int h X).

(** ISO C 6.3.1.4p1, the part of [(char)X] that the standard defines: the
    fractional part is discarded, and the result is defined only if the
    integer part is representable in [char]. *)
Definition iso_cast_double_char (h : Host) (X : double) : option Z :=
  match trunc (Prim2SF X) with
  | Some z => if (CHAR_MIN h <=? z) && (z <=? CHAR_MAX h) then Some z else None
  | None => None
  end.

(** [(unsigned char)c] for an [int] [c]: what [putchar] writes. *)
Definition to_uchar (c : Z) : Z := c mod 256.

(** Implicit conversion of an [int] to [double] (exact: 32 bits fit in the
    53-bit significand). *)
Definition int_to_double (z : Z) : double :=
  if z <? 0
  then PrimFloat.opp (PrimFloat.of_uint63 (Uint63.of_Z (- z)))
  else PrimFloat.of_uint63 (Uint63.of_Z z).

(** Two hosts.  [host_indefinite]: signed [char], an overflowing conversion
    yields the "integer indefinite" pattern 0x80000000 (the behaviour of the
    x86 [cvttsd2si] instruction). *)
Definition host_indefinite : Host :=
  mkHost true (fun _ => - 2 ^ 31).

(** [host_saturating]: unsigned [char], an overflowing conversion saturates
    to the nearest bound of [0, 2^32) and NaN converts to 0 (the behaviour of
    the AArch64 [fcvtzu] instruction). *)
Definition host_saturating : Host :=
  mkHost false
    (fun X => match Prim2SF X with
              | S754_nan => 0
              | S754_infinity s => if s then 0 else 2 ^ 32 - 1
              | Y => match trunc Y with
                     | Some z => Z.max 0 (Z.min z (2 ^ 32 - 1))
                     | None => 0
                     end
              end).

Definition ascii_of_byte (b : Z) : ascii := ascii_of_N (Z.to_N b).

End CNum.

(* ===================================================================== *)
(** ** Standard I/O *)
(* ===================================================================== *)

Module Stdio.

Import CNum.

Inductive stream : Set := stdin | stdout | stderr.

Definition stream_eqb (a b : stream) : bool :=
  match a, b with
  | stdin, stdin | stdout, stdout | stderr, stderr => true
  | _, _ => false
  end.

(** The library calls made by the program; both return an [int]. *)
Inductive call : Set :=
| Putchar (c : Z)          (* int putchar(int c)    *)
| Fflush (f : stream).     (* int fflush(FILE *f)   *)

(** A computation that makes library calls and returns an [A]. *)
Inductive io (A : Type) : Type :=
| Ret (a : A)
| Do (c : call) (k : Z -> io A).

Arguments Ret {A} a.
Arguments Do {A} c k.

Fixpoint bind {A B : Type} (m : io A) (f : A -> io B) : io B :=
  match m with
  | Ret a => f a
  | Do c k => Do c (fun r => bind (k r) f)
  end.

Notation "x <- m ;; k" := (bind m (fun x => k))
  (at level 61, m at next level, right associativity).
Notation "m ;; k" := (bind m (fun _ => k))
  (at level 61, right associativity).

Definition putchar (c : Z) : io Z := Do (Putchar c) Ret.
Definition fflush (f : stream) : io Z := Do (Fflush f) Ret.

(** Whatever answers the calls: a state [W] and, for each call, the [int]
    it returns and the next state. *)
Class Platform (W : Type) : Type :=
  perform : call -> W -> Z * W.

(** The result of running a computation: the calls it made, in order, the
    value it returned and the final state of the platform. *)
Record outcome (A W : Type) : Type := mkOutcome {
  calls : list call;
  result : A;
  world : W
}.

Arguments mkOutcome {A W} _ _ _.
Arguments calls {A W} _.
Arguments result {A W} _.
Arguments world {A W} _.

Fixpoint exec {W : Type} {P : Platform W} {A : Type} (m : io A) (w : W)
  : outcome A W :=
  match m with
  | Ret a => mkOutcome [] a w
  | Do c k =>
      let (r, w1) := perform c w in
      let o := exec (k r) w1 in
      mkOutcome (c :: calls o) (result o) (world o)
  end.

(** The bytes handed to the output stream by a sequence of calls. *)
Fixpoint emitted (t : list call) : list Z :=
  match t with
  | [] => []
  | Putchar c :: t' => to_uchar c :: emitted t'
  | Fflush _ :: t' => emitted t'
  end.

(** The streams touched by a sequence of calls. *)
Definition target (c : call) : stream :=
  match c with
  | Putchar _ => stdout
  | Fflush f => f
  end.

(** *** A buffered stream (ISO C 7.21.3)

    [unwritten] is the data accepted by the stream and still buffered,
    [delivered] the data handed over to the host environment, both oldest
    first.  [writable] says whether the host environment accepts data (it
    does not when the descriptor is closed or the device is full).

    Where ISO C is silent the stream behaves as the GNU C library does: a
    write that the host environment refuses empties the buffer, so the data
    is lost, and a full buffer is transmitted when the next byte arrives,
    not when the last one that fits is stored. *)
Inductive bufmode : Set := IONBF | IOLBF | IOFBF.

Record FILE : Type := mkFILE {
  unwritten : list Z;
  delivered : list Z;
  mode : bufmode;
  bufsize : nat;
  writable : bool;
  error : bool
}.

Definition EOF : Z := -1.

(** [fflush] on one stream.  With nothing buffered there is nothing to do
    and the answer is 0.  Otherwise the unwritten data is handed to the host
    environment; if it is refused, the data is dropped, the error indicator
    is set and the answer is [EOF]. *)
Definition fflush_file (f : FILE) : Z * FILE :=
  match unwritten f with
  | [] => (0, f)
  | _ :: _ =>
      if writable f
      then (0, mkFILE [] (delivered f ++ unwritten f)
                 (mode f) (bufsize f) (writable f) (error f))
      else (EOF, mkFILE [] (delivered f)
                   (mode f) (bufsize f) (writable f) true)
  end.

(** The buffer has no room for another byte. *)
Definition buffer_full (f : FILE) : bool :=
  (bufsize f <=? length (unwritten f))%nat.

(** Whether the stream transmits its buffer right after storing byte [b]:
    always when unbuffered, at a new-line when line buffered. *)
Definition flush_due (f : FILE) (b : Z) : bool :=
  match mode f with
  | IONBF => true
  | IOLBF => b =? 10
  | IOFBF => false
  end.

(** [fputc]: if the buffer is full it is transmitted first; then the
    character, converted to [unsigned char], is stored, and transmitted at
    once where the buffering mode asks for it.  The character written is
    returned, or [EOF] on a write error. *)
Definition fputc_file (c : Z) (f : FILE) : Z * FILE :=
  let b := to_uchar c in
  let (r0, f0) := if buffer_full f then fflush_file f else (0, f) in
  if r0 =? 0
  then
    let f1 := mkFILE (unwritten f0 ++ [b]) (delivered f0)
                (mode f0) (bufsize f0) (writable f0) (error f0) in
    if flush_due f1 b
    then let (r, f2) := fflush_file f1 in ((if r =? 0 then b else EOF), f2)
    else (b, f1)
  else (EOF, f0).

(** The process: its open streams and the rest of its memory.  The library
    calls below act on the streams only ([errno] is not modelled). *)
Record process (G : Type) : Type := mkProcess {
  files : stream -> FILE;
  globals : G
}.

Arguments mkProcess {G} _ _.
Arguments files {G} _ _.
Arguments globals {G} _.

Definition set_file {G : Type} (p : process G) (s : stream) (f : FILE)
  : process G :=
  mkProcess (fun s' => if stream_eqb s' s then f else files p s') (globals p).

Definition libc_perform {G : Type} (c : call) (p : process G)
  : Z * process G :=
  match c with
  | Putchar ch =>
      let (r, f) := fputc_file ch (files p stdout) in (r, set_file p stdout f)
  | Fflush s =>
      let (r, f) := fflush_file (files p s) in (r, set_file p s f)
  end.

#[export] Instance libc (G : Type) : Platform (process G) := libc_perform.

(** Everything written to a stream so far, delivered or not. *)
Definition contents (f : FILE) : list Z := delivered f ++ unwritten f.

(** The settings of a stream: buffering mode, buffer size, and whether the
    host environment takes its data. *)
Definition settings (f : FILE) : bufmode * nat * bool :=
  (mode f, bufsize f, writable f).

End Stdio.

(* ===================================================================== *)
(** ** libExt.c *)
(* ===================================================================== *)

Module LibExt.

Import CNum Stdio.

(** [a] is promoted to [int] when passed to [putchar], which keeps its
    value; the [int] 0 is converted to [double] on return. *)
Definition putchard (h : Host) (X : double) : io double :=
  let a := cast_double_char h X in   (* char a = (char)X; *)
  putchar a ;;                       (* putchar(a);       *)
  fflush stdout ;;                   (* fflush(stdout);   *)
  Ret (int_to_double 0).             (* return 0;         *)

(** The byte a call hands to the output stream. *)
Definition putchard_byte (h : Host) (X : double) : Z :=
  to_uchar (cast_double_char h X).

End LibExt.

Import CNum Stdio LibExt.


(** Two processes used as concrete inputs: standard output fully buffered
    with room to spare and data pending; in [closed_process] the host
    environment refuses every write. *)
Definition open_process : process unit :=
  mkProcess (fun _ => mkFILE [104; 105] [62] IOFBF 4096 true false) tt.

Definition closed_process : process unit :=
  mkProcess (fun _ => mkFILE [104; 105] [62] IOFBF 4096 false false) tt.

(** A computation makes at most [n] calls, whatever the answers. *)
Fixpoint within (n : nat) {A : Type} (m : io A) : Prop :=
  match m with
  | Ret _ => True
  | Do _ k =>
      match n with
      | O => False
      | S n' => forall r, within n' (k r)
      end
  end.

(** The calls [putchard(X)] for the elements of a list, one after the
    other, as a program that prints a string makes them. *)
Fixpoint putchard_each (h : Host) (Xs : list double) : io unit :=
  match Xs with
  | [] => Ret tt
  | X :: Xs' => putchard h X ;; putchard_each h Xs'
  end.

(* ===================================================================== *)
(** ** Arithmetic of the conversion *)
(* ===================================================================== *)

Section Narrowing.

Lemma zero_ext_8_range (z : Z) : 0 <= zero_ext 8 z <= 255.
Proof.
  unfold zero_ext. change (2 ^ 8) with 256.
  pose proof (Z.mod_pos_bound z 256). lia.
Qed.

Lemma sign_ext_8_range (z : Z) : -128 <= sign_ext 8 z <= 127.
Proof.
  unfold sign_ext. change (2 ^ 8) with 256. change (2 ^ (8 - 1)) with 128.
  pose proof (Z.mod_pos_bound z 256).
  destruct (Z.ltb_spec (z mod 256) 128); lia.
Qed.

Lemma to_uchar_zero_ext (z : Z) : to_uchar (zero_ext 8 z) = z mod 256.
Proof.
  unfold to_uchar, zero_ext. change (2 ^ 8) with 256.
  apply Z.mod_mod. lia.
Qed.

Lemma to_uchar_sign_ext (z : Z) : to_uchar (sign_ext 8 z) = z mod 256.
Proof.
  unfold to_uchar, sign_ext. change (2 ^ 8) with 256.
  change (2 ^ (8 - 1)) with 128.
  pose proof (Z.mod_pos_bound z 256).
  destruct (Z.ltb_spec (z mod 256) 128) as [Hlt | Hge].
  - apply Z.mod_small. lia.
  - symmetry. apply (Z.mod_unique_pos _ _ (-1)); lia.
Qed.

(** A plain [char] passed to [putchar] is written as the low 8 bits of the
    integer it was narrowed from, whether [char] is signed or not. *)
Lemma to_uchar_narrow_char (h : Host) (z : Z) :
  to_uchar (narrow_char h z) = z mod 256.
Proof.
  unfold narrow_char. destruct (char_signed h).
  - apply to_uchar_sign_ext.
  - apply to_uchar_zero_ext.
Qed.

Lemma narrow_char_range (h : Host) (z : Z) :
  CHAR_MIN h <= narrow_char h z <= CHAR_MAX h.
Proof.
  unfold narrow_char, CHAR_MIN, CHAR_MAX. destruct (char_signed h).
  - apply sign_ext_8_range.
  - apply zero_ext_8_range.
Qed.

Lemma narrow_char_id (h : Host) (z : Z) :
  CHAR_MIN h <= z <= CHAR_MAX h -> narrow_char h z = z.
Proof.
  unfold narrow_char, CHAR_MIN, CHAR_MAX, sign_ext, zero_ext.
  change (2 ^ 8) with 256. change (2 ^ (8 - 1)) with 128.
  destruct (char_signed h); intros Hz.
  - destruct (Z_lt_le_dec z 0) as [Hneg | Hpos].
    + assert (E : z mod 256 = z + 256)
        by (symmetry; apply (Z.mod_unique_pos _ _ (-1)); lia).
      rewrite E. destruct (Z.ltb_spec (z + 256) 128); lia.
    + rewrite Z.mod_small by lia. destruct (Z.ltb_spec z 128); lia.
  - apply Z.mod_small. lia.
Qed.

Lemma low8_land (z : Z) : z mod 256 = Z.land z 255.
Proof. symmetry. change 255 with (Z.ones 8). apply Z.land_ones. lia. Qed.

End Narrowing.

Section Conversion.

Variable h : Host.

Lemma conv_exact_char (z : Z) :
  CHAR_MIN h <= z <= CHAR_MAX h -> conv_exact h z = true.
Proof.
  unfold CHAR_MIN, CHAR_MAX, conv_exact.
  destruct (char_signed h); intros Hz;
    apply andb_true_intro; split;
    [apply Z.leb_le | apply Z.ltb_lt | apply Z.leb_le | apply Z.ltb_lt]; lia.
Qed.

Lemma conv_exact_byte (z : Z) : 0 <= z <= 255 -> conv_exact h z = true.
Proof.
  unfold conv_exact. intros Hz.
  apply andb_true_intro; split; [apply Z.leb_le | apply Z.ltb_lt].
  - destruct (char_signed h); lia.
  - lia.
Qed.

Lemma fp_to_int_exact (X : double) (z : Z) :
  trunc (Prim2SF X) = Some z -> conv_exact h z = true -> fp_to_int h X = z.
Proof. unfold fp_to_int. intros -> ->. reflexivity. Qed.

(** Inside the range where the conversion is exact, the byte written is the
    low 8 bits of the integer part. *)
Lemma putchard_byte_low8 (X : double) (z : Z) :
  trunc (Prim2SF X) = Some z -> conv_exact h z = true ->
  putchard_byte h X = z mod 256.
Proof.
  intros Ht Hc. unfold putchard_byte, cast_double_char.
  rewrite (fp_to_int_exact X z Ht Hc). apply to_uchar_narrow_char.
Qed.

(** Where ISO C defines the conversion, the embedding computes the value
    the standard prescribes. *)
Lemma cast_double_char_iso (X : double) (c : Z) :
  iso_cast_double_char h X = Some c -> cast_double_char h X = c.
Proof.
  unfold iso_cast_double_char, cast_double_char.
  destruct (trunc (Prim2SF X)) as [z |] eqn:Ht; [| discriminate].
  destruct ((CHAR_MIN h <=? z) && (z <=? CHAR_MAX h)) eqn:Hr; [| discriminate].
  intros [= <-].
  apply andb_prop in Hr. destruct Hr as [Hlo Hhi].
  apply Z.leb_le in Hlo. apply Z.leb_le in Hhi.
  rewrite (fp_to_int_exact X z Ht) by (apply conv_exact_char; lia).
  apply narrow_char_id. lia.
Qed.

Lemma cast_double_char_range (X : double) :
  CHAR_MIN h <= cast_double_char h X <= CHAR_MAX h.
Proof. apply narrow_char_range. Qed.

Lemma putchard_byte_range (X : double) : 0 <= putchard_byte h X <= 255.
Proof.
  unfold putchard_byte, to_uchar.
  pose proof (Z.mod_pos_bound (cast_double_char h X) 256). lia.
Qed.

End Conversion.

(** X7: the integer part is the value rounded toward zero: for a negative
    exponent the magnitude [q] of the result satisfies
    [q * 2^-e <= m < (q + 1) * 2^-e], and the sign is kept. *)
Lemma trunc_toward_zero (s : bool) (m : positive) (e z : Z) :
  e < 0 -> trunc (S754_finite s m e) = Some z ->
  Z.abs z * 2 ^ (- e) <= Z.pos m < (Z.abs z + 1) * 2 ^ (- e)
  /\ (if s then z <= 0 else 0 <= z).
Proof.
  intros He [= <-].
  rewrite Z.shiftl_div_pow2 by lia.
  assert (Hp : 0 < 2 ^ (- e)) by (apply Z.pow_pos_nonneg; lia).
  assert (Hq : 0 <= Z.pos m / 2 ^ (- e)) by (apply Z.div_pos; lia).
  assert (Ha : Z.abs (if s then - (Z.pos m / 2 ^ (- e))
                      else Z.pos m / 2 ^ (- e)) = Z.pos m / 2 ^ (- e))
    by (destruct s; lia).
  rewrite Ha. split; [split |].
  - rewrite Z.mul_comm. apply Z.mul_div_le. lia.
  - pose proof (Z.mul_succ_div_gt (Z.pos m) (2 ^ (- e)) Hp). lia.
  - destruct s; lia.
Qed.

Lemma trunc_integer (s : bool) (m : positive) (e : Z) :
  0 <= e ->
  trunc (S754_finite s m e) =
  Some ((if s then -1 else 1) * (Z.pos m * 2 ^ e)).
Proof.
  intros He. unfold trunc. rewrite Z.shiftl_mul_pow2 by lia.
  destruct s; f_equal; lia.
Qed.

Lemma trunc_finite (X : double) (z : Z) :
  trunc (Prim2SF X) = Some z -> is_finite X = true.
Proof. unfold is_finite. destruct (Prim2SF X); simpl; congruence. Qed.

Lemma finite_trunc (X : double) :
  is_finite X = true -> exists z, trunc (Prim2SF X) = Some z.
Proof.
  unfold is_finite. destruct (Prim2SF X); simpl; try discriminate; eauto.
Qed.

(* ===================================================================== *)
(** ** Running computations *)
(* ===================================================================== *)

Section Exec.

Context {W : Type} {P : Platform W}.

(** Sequencing: the second computation starts in the state the first one
    left, and its calls follow those of the first. *)
Lemma exec_bind {A B : Type} (m : io A) (f : A -> io B) (w : W) :
  exec (bind m f) w =
  mkOutcome
    (calls (exec m w) ++ calls (exec (f (result (exec m w))) (world (exec m w))))
    (result (exec (f (result (exec m w))) (world (exec m w))))
    (world (exec (f (result (exec m w))) (world (exec m w)))).
Proof.
  revert w. induction m as [a | c k IH]; intros w; simpl.
  - destruct (exec (f a) w); reflexivity.
  - destruct (perform c w) as [r w1]. rewrite IH. reflexivity.
Qed.

Lemma emitted_app (t u : list call) : emitted (t ++ u) = emitted t ++ emitted u.
Proof.
  induction t as [| [c | f] t IH]; simpl; [reflexivity | | assumption].
  now rewrite IH.
Qed.

(** The body of [putchard], call by call: [putchar(a)], then
    [fflush(stdout)] in the state [putchar] left, then [return 0]; neither
    answer is looked at. *)
Lemma exec_putchard (h : Host) (X : double) (w : W) :
  exec (putchard h X) w =
  mkOutcome
    [Putchar (cast_double_char h X); Fflush stdout]
    0%float
    (snd (perform (Fflush stdout)
            (snd (perform (Putchar (cast_double_char h X)) w)))).
Proof.
  unfold putchard, putchar, fflush. simpl.
  destruct (perform (Putchar (cast_double_char h X)) w) as [r1 w1]. simpl.
  destruct (perform (Fflush stdout) w1) as [r2 w2]. reflexivity.
Qed.

Lemma calls_putchard (h : Host) (X : double) (w : W) :
  calls (exec (putchard h X) w) =
  [Putchar (cast_double_char h X); Fflush stdout].
Proof. now rewrite exec_putchard. Qed.

Lemma emitted_putchard (h : Host) (X : double) (w : W) :
  emitted (calls (exec (putchard h X) w)) = [putchard_byte h X].
Proof. now rewrite calls_putchard. Qed.

Lemma result_putchard (h : Host) (X : double) (w : W) :
  result (exec (putchard h X) w) = 0%float.
Proof. now rewrite exec_putchard. Qed.

(** Frame rule: a part of the platform state that calls on [stdout] leave
    alone is left alone by [putchard]. *)
Lemma putchard_preserves {T : Type} (obs : W -> T) (h : Host) (X : double) :
  (forall c w, target c = stdout -> obs (snd (perform c w)) = obs w) ->
  forall w, obs (world (exec (putchard h X) w)) = obs w.
Proof.
  intros Hfr w. rewrite exec_putchard. simpl.
  rewrite Hfr by reflexivity. apply Hfr. reflexivity.
Qed.

End Exec.

(* ===================================================================== *)
(** ** The buffered stream *)
(* ===================================================================== *)

Section Stream.

(** The settings of a stream are not changed by writing or flushing. *)
Lemma fflush_file_settings (f : FILE) :
  settings (snd (fflush_file f)) = settings f.
Proof.
  unfold fflush_file, settings.
  destruct (unwritten f); [reflexivity |].
  destruct (writable f); reflexivity.
Qed.

Lemma fputc_file_settings (c : Z) (f : FILE) :
  settings (snd (fputc_file c f)) = settings f.
Proof.
  unfold fputc_file.
  assert (E0 : settings
                 (snd (if buffer_full f then fflush_file f else (0, f)))
               = settings f)
    by (destruct (buffer_full f); [apply fflush_file_settings | reflexivity]).
  destruct (if buffer_full f then fflush_file f else (0, f)) as [r0 f0].
  simpl in E0. destruct (r0 =? 0); [| exact E0].
  set (f1 := mkFILE _ _ _ _ _ _).
  assert (E1 : settings f1 = settings f) by exact E0.
  destruct (flush_due f1 (to_uchar c)); [| exact E1].
  rewrite <- E1, <- (fflush_file_settings f1).
  destruct (fflush_file f1); reflexivity.
Qed.

(** A flush that the host environment accepts answers 0, leaves nothing
    unwritten and loses nothing. *)
Lemma fflush_file_delivers (f : FILE) :
  writable f = true ->
  fst (fflush_file f) = 0
  /\ unwritten (snd (fflush_file f)) = []
  /\ delivered (snd (fflush_file f)) = contents f.
Proof.
  unfold fflush_file, contents. intros Hw.
  destruct (unwritten f) as [| b u] eqn:E.
  - simpl. rewrite E, app_nil_r. auto.
  - rewrite Hw. simpl. auto.
Qed.

Lemma fflush_file_contents (f : FILE) :
  writable f = true -> contents (snd (fflush_file f)) = contents f.
Proof.
  intros Hw. destruct (fflush_file_delivers f Hw) as (_ & Hu & Hd).
  unfold contents at 1. rewrite Hu, Hd. apply app_nil_r.
Qed.

Lemma settings_writable (f g : FILE) :
  settings f = settings g -> writable f = writable g.
Proof. unfold settings. intros E. now injection E. Qed.

Lemma fputc_file_contents (c : Z) (f : FILE) :
  writable f = true ->
  contents (snd (fputc_file c f)) = contents f ++ [to_uchar c].
Proof.
  intros Hw. unfold fputc_file.
  assert (E0 : fst (if buffer_full f then fflush_file f else (0, f)) = 0
               /\ writable
                    (snd (if buffer_full f then fflush_file f else (0, f)))
                  = true
               /\ contents
                    (snd (if buffer_full f then fflush_file f else (0, f)))
                  = contents f).
  { destruct (buffer_full f); [| auto].
    destruct (fflush_file_delivers f Hw) as (Hr & _ & _).
    repeat split.
    - exact Hr.
    - rewrite (settings_writable _ _ (fflush_file_settings f)). exact Hw.
    - apply fflush_file_contents. exact Hw. }
  destruct (if buffer_full f then fflush_file f else (0, f)) as [r0 f0].
  simpl in E0. destruct E0 as (-> & Hw0 & Hc0). simpl.
  set (f1 := mkFILE _ _ _ _ _ _).
  assert (E1 : contents f1 = contents f ++ [to_uchar c])
    by (rewrite <- Hc0; unfold contents, f1; simpl; now rewrite app_assoc).
  destruct (flush_due f1 (to_uchar c)); [| exact E1].
  rewrite <- E1, <- (fflush_file_contents f1 Hw0).
  destruct (fflush_file f1); reflexivity.
Qed.

Lemma putc_then_flush_delivers (c : Z) (f : FILE) :
  writable f = true ->
  unwritten (snd (fflush_file (snd (fputc_file c f)))) = []
  /\ delivered (snd (fflush_file (snd (fputc_file c f))))
     = contents f ++ [to_uchar c].
Proof.
  intros Hw.
  assert (Hw' : writable (snd (fputc_file c f)) = true)
    by (rewrite (settings_writable _ _ (fputc_file_settings c f)); exact Hw).
  destruct (fflush_file_delivers _ Hw') as (_ & Hu & Hd).
  split; [exact Hu |]. rewrite Hd. apply fputc_file_contents. exact Hw.
Qed.

(** A write that the host environment refuses sets the error indicator. *)
Lemma putc_then_flush_error (c : Z) (f : FILE) :
  error (snd (fflush_file (snd (fputc_file c f))))
  = error f || negb (writable f).
Proof.
  destruct f as [u d m n w e].
  unfold fputc_file, fflush_file, buffer_full, flush_due. simpl.
  destruct ((n <=? length u)%nat), u, w, m, e; simpl;
    try destruct (to_uchar c =? 10); reflexivity.
Qed.

Context {G : Type}.

Lemma libc_putchard_stdout (h : Host) (X : double) (p : process G) :
  files (world (exec (putchard h X) p)) stdout
  = snd (fflush_file (snd (fputc_file (cast_double_char h X) (files p stdout)))).
Proof.
  rewrite exec_putchard. simpl. unfold perform, libc, libc_perform.
  destruct (fputc_file (cast_double_char h X) (files p stdout)) as [r1 f1].
  simpl. destruct (fflush_file f1) as [r2 f2]. reflexivity.
Qed.

Lemma libc_putchard_other (h : Host) (X : double) (p : process G) (s : stream) :
  stream_eqb s stdout = false ->
  files (world (exec (putchard h X) p)) s = files p s.
Proof.
  intros Hs. rewrite exec_putchard. simpl. unfold perform, libc, libc_perform.
  destruct (fputc_file (cast_double_char h X) (files p stdout)) as [r1 f1].
  simpl. destruct (fflush_file f1) as [r2 f2]. simpl.
  now rewrite !Hs.
Qed.

Lemma libc_putchard_settings (h : Host) (X : double) (p : process G) :
  settings (files (world (exec (putchard h X) p)) stdout)
  = settings (files p stdout).
Proof.
  rewrite libc_putchard_stdout, fflush_file_settings.
  apply fputc_file_settings.
Qed.

Lemma libc_putchard_writable (h : Host) (X : double) (p : process G) :
  writable (files (world (exec (putchard h X) p)) stdout)
  = writable (files p stdout).
Proof. apply settings_writable, libc_putchard_settings. Qed.

Lemma libc_putchard_contents (h : Host) (X : double) (p : process G) :
  writable (files p stdout) = true ->
  contents (files (world (exec (putchard h X) p)) stdout)
  = contents (files p stdout) ++ [putchard_byte h X].
Proof.
  intros Hw. rewrite libc_putchard_stdout, fflush_file_contents.
  - apply fputc_file_contents. exact Hw.
  - rewrite (settings_writable _ _ (fputc_file_settings _ _)). exact Hw.
Qed.

(** Calls on standard output leave the other streams alone. *)
Lemma libc_stdout_call_keeps_others (c : call) (p : process G) :
  target c = stdout ->
  (files (snd (perform c p)) stdin, files (snd (perform c p)) stderr)
  = (files p stdin, files p stderr).
Proof.
  unfold perform, libc, libc_perform.
  destruct c as [ch | s]; simpl.
  - intros _. destruct (fputc_file ch (files p stdout)); reflexivity.
  - intros ->. destruct (fflush_file (files p stdout)); reflexivity.
Qed.

End Stream.

(* ===================================================================== *)
(** ** Sample runs *)
(* ===================================================================== *)

Example run_open :
  exec (putchard host_indefinite 65.5%float) open_process
  = mkOutcome [Putchar 65; Fflush stdout] 0%float
      (world (exec (putchard host_indefinite 65.5%float) open_process))
  /\ files (world (exec (putchard host_indefinite 65.5%float) open_process))
       stdout
     = mkFILE [] [62; 104; 105; 65] IOFBF 4096 true false.
Proof. split; reflexivity. Qed.

(** With the host environment refusing the write, the pending data and the
    byte are lost, the error indicator is set, and the call returns [0.0]. *)
Example run_closed :
  result (exec (putchard host_indefinite 65.5%float) closed_process) = 0%float
  /\ files (world (exec (putchard host_indefinite 65.5%float) closed_process))
       stdout
     = mkFILE [] [62] IOFBF 4096 false true.
Proof. split; reflexivity. Qed.

(** An unbuffered stream transmits on [putchar] already; when the write is
    refused [putchar] answers [EOF], and the [fflush] that follows finds
    nothing to do and answers 0. *)
Example run_unbuffered :
  fputc_file 120 (mkFILE [] [62] IONBF 1 true false)
  = (120, mkFILE [] [62; 120] IONBF 1 true false)
  /\ fputc_file 120 (mkFILE [] [62] IONBF 1 false false)
     = (EOF, mkFILE [] [62] IONBF 1 false true)
  /\ fflush_file (mkFILE [] [62] IONBF 1 false true)
     = (0, mkFILE [] [62] IONBF 1 false true).
Proof. repeat split. Qed.

(** A full buffer is transmitted when the next byte arrives. *)
Example run_full_buffer :
  fputc_file 99 (mkFILE [97] [] IOFBF 2 true false)
  = (99, mkFILE [97; 99] [] IOFBF 2 true false)
  /\ fputc_file 100 (mkFILE [97; 99] [] IOFBF 2 true false)
     = (100, mkFILE [100] [97; 99] IOFBF 2 true false).
Proof. split; reflexivity. Qed.

(** Beyond the range where the conversion is exact the byte is the host's:
    the two hosts disagree on -1.0 (negative towards an unsigned [char]),
    on 1e10 and on positive infinity. *)
Example bytes_host_indefinite :
  map (putchard_byte host_indefinite)
    [(-1)%float; 256%float; 200%float; (-0.5)%float; 1e10%float;
     infinity; neg_infinity; nan]
  = [255; 0; 200; 0; 0; 0; 0; 0].
Proof. reflexivity. Qed.

Example bytes_host_saturating :
  map (putchard_byte host_saturating)
    [(-1)%float; 256%float; 200%float; (-0.5)%float; 1e10%float;
     infinity; neg_infinity; nan]
  = [0; 0; 200; 0; 255; 255; 0; 0].
Proof. reflexivity. Qed.

Example trunc_negative : trunc (Prim2SF (-65.5)%float) = Some (-65).
Proof. reflexivity. Qed.

(* ===================================================================== *)
(** ** Properties of [putchard] *)
(* ===================================================================== *)

(** C1: for a finite [X] whose integer part [z] lies in 0..255, a call hands
    exactly one byte, [z], to the output stream and returns [0.0], on every
    host, with [char] signed or not, and on every platform; on the buffered
    stream, when the host environment takes the data, the data written to
    standard output grows by exactly that byte. *)
Theorem putchard_emits_byte_in_range (h : Host) (X : double) (z : Z) :
  trunc (Prim2SF X) = Some z -> 0 <= z <= 255 ->
  (forall (W : Type) (P : Platform W) (w : W),
      emitted (calls (exec (putchard h X) w)) = [z]
      /\ result (exec (putchard h X) w) = 0%float)
  /\ (forall (G : Type) (p : process G),
      writable (files p stdout) = true ->
      contents (files (world (exec (putchard h X) p)) stdout)
      = contents (files p stdout) ++ [z]).
Proof.
  intros Ht Hz.
  assert (Hb : putchard_byte h X = z).
  { rewrite (putchard_byte_low8 h X z Ht (conv_exact_byte h z Hz)).
    apply Z.mod_small. lia. }
  split.
  - intros W P w. rewrite emitted_putchard, result_putchard, Hb. auto.
  - intros G p Hw. rewrite (libc_putchard_contents h X p Hw), Hb.
    reflexivity.
Qed.

Lemma putchard_emits_byte_in_range_witness :
  (forall (W : Type) (P : Platform W) (w : W),
      emitted (calls (exec (putchard host_indefinite 200%float) w)) = [200]
      /\ result (exec (putchard host_indefinite 200%float) w) = 0%float)
  /\ contents
       (files (world (exec (putchard host_indefinite 200%float) open_process))
          stdout)
     = [62; 104; 105; 200].
Proof.
  assert (Ht : trunc (Prim2SF 200%float) = Some 200) by reflexivity.
  assert (Hz : 0 <= 200 <= 255) by lia.
  split.
  - apply (proj1 (putchard_emits_byte_in_range
                    host_indefinite 200%float 200 Ht Hz)).
  - apply (proj2 (putchard_emits_byte_in_range
                    host_indefinite 200%float 200 Ht Hz) unit open_process).
    reflexivity.
Defined.

(** C2: the value returned is [0.0] for every input, on every platform and
    in every state; the answers of [putchar] and [fflush] (success or
    [EOF]) are bound to nothing, the computation that follows them is the
    same whatever they are. *)
Theorem putchard_returns_zero (h : Host) (X : double) :
  (forall (W : Type) (P : Platform W) (w : W),
      result (exec (putchard h X) w) = 0%float)
  /\ (exists k1 k2,
        putchard h X = Do (Putchar (cast_double_char h X)) k1
        /\ (forall r1 : Z, k1 r1 = Do (Fflush stdout) k2)
        /\ (forall r2 : Z, k2 r2 = Ret 0%float)).
Proof.
  split.
  - intros W P w. apply result_putchard.
  - exists (fun _ => Do (Fflush stdout) (fun _ => Ret 0%float)).
    exists (fun _ => Ret 0%float).
    repeat split.
Qed.

(** C3: the conversion drops the fraction and does not round:
    [putchard(65.5)] writes the byte of the character A (so does
    [putchard(65.75)], which every rounding to nearest would take to 66),
    and [putchard(120.0)] writes the byte of the character x. *)
Theorem putchard_truncates (h : Host) (W : Type) (P : Platform W) (w : W) :
  emitted (calls (exec (putchard h 65.5%float) w)) = [65]
  /\ map ascii_of_byte (emitted (calls (exec (putchard h 65.5%float) w)))
     = ["A"%char]
  /\ map ascii_of_byte (emitted (calls (exec (putchard h 65.75%float) w)))
     = ["A"%char]
  /\ emitted (calls (exec (putchard h 120%float) w)) = [120]
  /\ map ascii_of_byte (emitted (calls (exec (putchard h 120%float) w)))
     = ["x"%char].
Proof.
  rewrite !emitted_putchard.
  rewrite (putchard_byte_low8 h 65.5%float 65)
    by (reflexivity || (apply conv_exact_byte; lia)).
  rewrite (putchard_byte_low8 h 65.75%float 65)
    by (reflexivity || (apply conv_exact_byte; lia)).
  rewrite (putchard_byte_low8 h 120%float 120)
    by (reflexivity || (apply conv_exact_byte; lia)).
  repeat split.
Qed.

(** C4: on every host and for every [X], in range or not, the byte written
    is the low 8 bits of the integer the host's conversion produced; and as
    long as the integer part [z] of [X] fits the register of that conversion
    ([conv_exact]) it is the low 8 bits of [z].  That range contains 256.0
    on every host and -1.0 wherever [char] is signed. *)
Theorem putchard_low_eight_bits
  (h : Host) (X : double) (W : Type) (P : Platform W) (w : W) :
  emitted (calls (exec (putchard h X) w)) = [Z.land (fp_to_int h X) 255]
  /\ (forall z : Z,
        trunc (Prim2SF X) = Some z -> conv_exact h z = true ->
        emitted (calls (exec (putchard h X) w)) = [Z.land z 255]).
Proof.
  rewrite emitted_putchard. split.
  - unfold putchard_byte, cast_double_char.
    rewrite to_uchar_narrow_char, low8_land. reflexivity.
  - intros z Ht Hc.
    rewrite (putchard_byte_low8 h X z Ht Hc), low8_land. reflexivity.
Qed.

Lemma putchard_low_eight_bits_witness :
  emitted (calls (exec (putchard host_indefinite (-1)%float) open_process))
  = [255]
  /\ emitted (calls (exec (putchard host_saturating 256%float) open_process))
     = [0].
Proof.
  split.
  - apply (proj2 (putchard_low_eight_bits host_indefinite (-1)%float
                    (process unit) (libc unit) open_process) (-1));
      reflexivity.
  - apply (proj2 (putchard_low_eight_bits host_saturating 256%float
                    (process unit) (libc unit) open_process) 256);
      reflexivity.
Defined.

(** C5: a call makes two library calls, both on standard output, of which
    exactly one writes, and it writes one byte.  It has no effect of its
    own: on every platform, whatever part of the state the calls on
    standard output leave alone is as it was when the call returns.  On the
    buffered stream the settings of standard output and the other streams
    are unchanged and, when the host environment takes the data, the data
    written to standard output grows by exactly that byte. *)
Theorem putchard_frame (h : Host) (X : double) :
  (forall (W : Type) (P : Platform W) (w : W),
      length (emitted (calls (exec (putchard h X) w))) = 1%nat
      /\ map target (calls (exec (putchard h X) w)) = [stdout; stdout])
  /\ (forall (W : Type) (P : Platform W) (T : Type) (obs : W -> T),
      (forall c w, target c = stdout -> obs (snd (perform c w)) = obs w) ->
      forall w : W, obs (world (exec (putchard h X) w)) = obs w)
  /\ (forall (G : Type) (p : process G),
      settings (files (world (exec (putchard h X) p)) stdout)
      = settings (files p stdout)
      /\ files (world (exec (putchard h X) p)) stdin = files p stdin
      /\ files (world (exec (putchard h X) p)) stderr = files p stderr
      /\ (writable (files p stdout) = true ->
          contents (files (world (exec (putchard h X) p)) stdout)
          = contents (files p stdout) ++ [putchard_byte h X])).
Proof.
  split; [| split].
  - intros W P w. rewrite calls_putchard. split; reflexivity.
  - intros W P T obs Hfr w. apply putchard_preserves. exact Hfr.
  - intros G p. repeat split.
    + apply libc_putchard_settings.
    + apply libc_putchard_other. reflexivity.
    + apply libc_putchard_other. reflexivity.
    + apply libc_putchard_contents.
Qed.

Lemma putchard_frame_witness :
  (files (world (exec (putchard host_indefinite 120%float) closed_process))
     stdin,
   files (world (exec (putchard host_indefinite 120%float) closed_process))
     stderr)
  = (files closed_process stdin, files closed_process stderr)
  /\ contents
       (files (world (exec (putchard host_indefinite 120%float) open_process))
          stdout)
     = [62; 104; 105; 120].
Proof.
  split.
  - apply (proj1 (proj2 (putchard_frame host_indefinite 120%float))
             (process unit) (libc unit) (FILE * FILE)%type
             (fun p => (files p stdin, files p stderr))).
    intros c w Hc. apply libc_stdout_call_keeps_others. exact Hc.
  - apply (proj2 (proj2 (putchard_frame host_indefinite 120%float))
             unit open_process).
    reflexivity.
Defined.

(** C6: two calls in sequence, [putchard(X1)] then [putchard(X2)], hand two
    bytes to the output stream, the byte of [X1] before the byte of [X2];
    the second call runs in the state the first one left, and on the
    buffered stream, when the host environment takes the data, the data
    written to standard output grows by those two bytes in that order. *)
Theorem putchard_twice_in_order (h : Host) (X1 X2 : double) :
  (forall (W : Type) (P : Platform W) (w : W),
      world (exec (putchard h X1 ;; putchard h X2) w)
      = world (exec (putchard h X2) (world (exec (putchard h X1) w)))
      /\ calls (exec (putchard h X1 ;; putchard h X2) w)
         = [Putchar (cast_double_char h X1); Fflush stdout;
            Putchar (cast_double_char h X2); Fflush stdout]
      /\ emitted (calls (exec (putchard h X1 ;; putchard h X2) w))
         = [putchard_byte h X1; putchard_byte h X2])
  /\ (forall (G : Type) (p : process G),
      writable (files p stdout) = true ->
      contents
        (files (world (exec (putchard h X1 ;; putchard h X2) p)) stdout)
      = contents (files p stdout) ++ [putchard_byte h X1; putchard_byte h X2]).
Proof.
  split.
  - intros W P w. rewrite exec_bind. cbn [calls result world].
    rewrite !calls_putchard. repeat split.
  - intros G p Hw. rewrite exec_bind. cbn [calls result world].
    rewrite libc_putchard_contents
      by (rewrite libc_putchard_writable; exact Hw).
    rewrite (libc_putchard_contents h X1 p Hw), <- app_assoc. reflexivity.
Qed.

Lemma putchard_twice_in_order_witness :
  contents
    (files (world (exec (putchard host_indefinite 72%float ;;
                         putchard host_indefinite 105.5%float) open_process))
       stdout)
  = [62; 104; 105; 72; 105].
Proof.
  apply (proj2 (putchard_twice_in_order host_indefinite 72%float 105.5%float)
           unit open_process).
  reflexivity.
Defined.

(** C7: the byte written and the value returned depend on [X] only: two
    calls with the same [X], on any two platforms in any two states, write
    the same single byte and return the same value. *)
Theorem putchard_deterministic
  (h : Host) (X : double)
  (W1 : Type) (P1 : Platform W1) (w1 : W1)
  (W2 : Type) (P2 : Platform W2) (w2 : W2) :
  emitted (calls (exec (putchard h X) w1))
  = emitted (calls (exec (putchard h X) w2))
  /\ result (exec (putchard h X) w1) = result (exec (putchard h X) w2)
  /\ emitted (calls (exec (putchard h X) w1)) = [putchard_byte h X]
  /\ result (exec (putchard h X) w1) = 0%float.
Proof.
  rewrite !emitted_putchard, !result_putchard. repeat split.
Qed.

(** C8: [fflush(stdout)] is called after [putchar] and is the last thing
    done before returning; when the host environment takes the data, the
    byte has been delivered on return and nothing is left in the buffer,
    whatever the buffering mode, the buffer size and the data pending
    before the call. *)
Theorem putchard_flushes (h : Host) (X : double) :
  (forall (W : Type) (P : Platform W) (w : W),
      calls (exec (putchard h X) w)
      = [Putchar (cast_double_char h X); Fflush stdout]
      /\ world (exec (putchard h X) w)
         = snd (perform (Fflush stdout)
                  (snd (perform (Putchar (cast_double_char h X)) w))))
  /\ (forall (G : Type) (p : process G),
      writable (files p stdout) = true ->
      unwritten (files (world (exec (putchard h X) p)) stdout) = []
      /\ delivered (files (world (exec (putchard h X) p)) stdout)
         = contents (files p stdout) ++ [putchard_byte h X]).
Proof.
  split.
  - intros W P w. rewrite exec_putchard. split; reflexivity.
  - intros G p Hw. rewrite libc_putchard_stdout.
    apply putc_then_flush_delivers. exact Hw.
Qed.

Lemma putchard_flushes_witness :
  unwritten
    (files (world (exec (putchard host_indefinite 120%float) open_process))
       stdout) = []
  /\ delivered
       (files (world (exec (putchard host_indefinite 120%float) open_process))
          stdout) = [62; 104; 105; 120].
Proof.
  apply (proj2 (putchard_flushes host_indefinite 120%float) unit open_process).
  reflexivity.
Defined.

(** C9: the input is not examined: for every [X], finite or not, the
    computation is the same straight line, [putchar] of the converted value,
    [fflush(stdout)], [return 0], with both answers dropped.  A write the
    host environment refuses shows in the error indicator of the stream and
    not in the result, which is [0.0] all the same. *)
Theorem putchard_no_validation (h : Host) (X : double) :
  putchard h X
  = Do (Putchar (cast_double_char h X))
      (fun _ => Do (Fflush stdout) (fun _ => Ret 0%float))
  /\ (forall (W : Type) (P : Platform W) (w : W),
      result (exec (putchard h X) w) = 0%float)
  /\ (forall (G : Type) (p : process G),
      error (files (world (exec (putchard h X) p)) stdout)
      = error (files p stdout) || negb (writable (files p stdout))
      /\ result (exec (putchard h X) p) = 0%float).
Proof.
  split; [reflexivity |]. split.
  - intros W P w. apply result_putchard.
  - intros G p. split.
    + rewrite libc_putchard_stdout. apply putc_then_flush_error.
    + apply result_putchard.
Qed.

(** C10: [putchard] returns for every input: its computation makes at most
    two calls whatever they answer, and run on any platform in any state it
    yields an outcome, after exactly the calls [putchar] and
    [fflush(stdout)]. *)
Theorem putchard_total (h : Host) (X : double) :
  within 2 (putchard h X)
  /\ (forall (W : Type) (P : Platform W) (w : W),
      exists (a : Z) (w' : W),
        exec (putchard h X) w
        = mkOutcome [Putchar a; Fflush stdout] 0%float w').
Proof.
  split.
  - simpl. auto.
  - intros W P w. rewrite exec_putchard. eauto.
Qed.

(* ===================================================================== *)
(** ** Further properties *)
(* ===================================================================== *)

Lemma sign_ext_8_high (z : Z) : 128 <= z <= 255 -> sign_ext 8 z = z - 256.
Proof.
  intros Hz. unfold sign_ext. change (2 ^ 8) with 256.
  change (2 ^ (8 - 1)) with 128. rewrite Z.mod_small by lia.
  destruct (Z.ltb_spec z 128); lia.
Qed.

Lemma exec_putchard_each_cons {W : Type} {P : Platform W}
  (h : Host) (X : double) (Xs : list double) (w : W) :
  calls (exec (putchard_each h (X :: Xs)) w)
  = calls (exec (putchard h X) w)
    ++ calls (exec (putchard_each h Xs) (world (exec (putchard h X) w)))
  /\ world (exec (putchard_each h (X :: Xs)) w)
     = world (exec (putchard_each h Xs) (world (exec (putchard h X) w))).
Proof.
  change (putchard_each h (X :: Xs))
    with (putchard h X ;; putchard_each h Xs).
  rewrite exec_bind. split; reflexivity.
Qed.

(** X1: the byte depends on the integer part modulo 256 only: two inputs
    whose integer parts fit the conversion register and differ by a multiple
    of 256 (in particular two inputs with the same integer part and
    different fractions) make [putchard] write the same byte. *)
Theorem putchard_byte_periodic
  (h : Host) (X1 X2 : double) (z k : Z)
  (W : Type) (P : Platform W) (w1 w2 : W) :
  trunc (Prim2SF X1) = Some z ->
  trunc (Prim2SF X2) = Some (z + 256 * k) ->
  conv_exact h z = true -> conv_exact h (z + 256 * k) = true ->
  emitted (calls (exec (putchard h X1) w1))
  = emitted (calls (exec (putchard h X2) w2)).
Proof.
  intros H1 H2 E1 E2. rewrite !emitted_putchard.
  rewrite (putchard_byte_low8 h X1 _ H1 E1).
  rewrite (putchard_byte_low8 h X2 _ H2 E2).
  rewrite (Z.mul_comm 256 k), Z.mod_add by lia. reflexivity.
Qed.

Lemma putchard_byte_periodic_witness :
  emitted (calls (exec (putchard host_indefinite 65.5%float) open_process))
  = emitted (calls (exec (putchard host_indefinite 321%float) closed_process)).
Proof.
  apply (putchard_byte_periodic host_indefinite 65.5%float 321%float 65 1);
    reflexivity.
Defined.

(** X2: whatever the input (out of range, infinite or NaN) and whatever the
    host's overflowing conversion yields, the [int] passed to [putchar] lies
    in the range of plain [char] and the byte written lies in 0..255. *)
Theorem putchard_argument_in_char_range
  (h : Host) (X : double) (W : Type) (P : Platform W) (w : W) :
  exists a : Z,
    calls (exec (putchard h X) w) = [Putchar a; Fflush stdout]
    /\ CHAR_MIN h <= a <= CHAR_MAX h
    /\ emitted (calls (exec (putchard h X) w)) = [to_uchar a]
    /\ 0 <= to_uchar a <= 255.
Proof.
  exists (cast_double_char h X). rewrite calls_putchard.
  split; [reflexivity |]. split; [apply cast_double_char_range |].
  split; [reflexivity |]. apply (putchard_byte_range h X).
Qed.

(** X3: where plain [char] is signed, an input with integer part [z] in
    128..255 is stored in [a] as the negative value [z - 256]; [putchar] is
    called with that negative [int] (with -1, the value of [EOF], for 255)
    and still writes the byte [z]. *)
Theorem putchard_signed_char_high_half
  (h : Host) (X : double) (z : Z) (W : Type) (P : Platform W) (w : W) :
  char_signed h = true ->
  trunc (Prim2SF X) = Some z -> 128 <= z <= 255 ->
  calls (exec (putchard h X) w) = [Putchar (z - 256); Fflush stdout]
  /\ emitted (calls (exec (putchard h X) w)) = [z].
Proof.
  intros Hs Ht Hz.
  assert (Ha : cast_double_char h X = z - 256).
  { unfold cast_double_char, narrow_char.
    rewrite (fp_to_int_exact h X z Ht) by (apply conv_exact_byte; lia).
    rewrite Hs. apply sign_ext_8_high. exact Hz. }
  rewrite calls_putchard, Ha. split; [reflexivity |].
  simpl. unfold to_uchar. f_equal.
  symmetry. apply (Z.mod_unique_pos _ _ (-1)); lia.
Qed.

Lemma putchard_signed_char_high_half_witness :
  calls (exec (putchard host_indefinite 255%float) open_process)
  = [Putchar (-1); Fflush stdout]
  /\ emitted (calls (exec (putchard host_indefinite 255%float) open_process))
     = [255].
Proof.
  apply (putchard_signed_char_high_half host_indefinite 255%float 255).
  - reflexivity.
  - reflexivity.
  - lia.
Defined.

(** X4: an input whose integer part [z] is representable in plain [char]
    reaches [putchar] unchanged: the conversion neither wraps nor changes
    the sign, on every host. *)
Theorem putchard_char_range_exact
  (h : Host) (X : double) (z : Z) (W : Type) (P : Platform W) (w : W) :
  trunc (Prim2SF X) = Some z -> CHAR_MIN h <= z <= CHAR_MAX h ->
  calls (exec (putchard h X) w) = [Putchar z; Fflush stdout].
Proof.
  intros Ht Hz. rewrite calls_putchard.
  unfold cast_double_char.
  rewrite (fp_to_int_exact h X z Ht (conv_exact_char h z Hz)).
  rewrite (narrow_char_id h z Hz). reflexivity.
Qed.

Lemma putchard_char_range_exact_witness :
  calls (exec (putchard host_indefinite (-128.75)%float) open_process)
  = [Putchar (-128); Fflush stdout].
Proof.
  apply (putchard_char_range_exact host_indefinite (-128.75)%float (-128)).
  - reflexivity.
  - unfold CHAR_MIN, CHAR_MAX, host_indefinite. simpl. lia.
Defined.

(** X5: any number of calls in sequence write their bytes in call order:
    the bytes handed to the output stream are those of the inputs, one per
    call, on every platform, and whatever part of the platform state the
    calls on standard output leave alone is as it was after the last call.
    On the buffered stream the settings of standard output and the other
    streams are unchanged and, when the host environment takes the data,
    the data written to standard output grows by exactly these bytes. *)
Theorem putchard_each_in_order (h : Host) (Xs : list double) :
  (forall (W : Type) (P : Platform W) (w : W),
      emitted (calls (exec (putchard_each h Xs) w))
      = map (putchard_byte h) Xs)
  /\ (forall (W : Type) (P : Platform W) (T : Type) (obs : W -> T),
      (forall c w, target c = stdout -> obs (snd (perform c w)) = obs w) ->
      forall w : W, obs (world (exec (putchard_each h Xs) w)) = obs w)
  /\ (forall (G : Type) (p : process G),
      settings (files (world (exec (putchard_each h Xs) p)) stdout)
      = settings (files p stdout)
      /\ files (world (exec (putchard_each h Xs) p)) stdin = files p stdin
      /\ files (world (exec (putchard_each h Xs) p)) stderr = files p stderr
      /\ (writable (files p stdout) = true ->
          contents (files (world (exec (putchard_each h Xs) p)) stdout)
          = contents (files p stdout) ++ map (putchard_byte h) Xs)).
Proof.
  split; [| split].
  - intros W P. induction Xs as [| X Xs IH]; intros w; [reflexivity |].
    destruct (exec_putchard_each_cons h X Xs w) as [-> _].
    rewrite emitted_app, emitted_putchard, IH. reflexivity.
  - intros W P T obs Hfr.
    induction Xs as [| X Xs IH]; intros w; [reflexivity |].
    destruct (exec_putchard_each_cons h X Xs w) as [_ ->].
    rewrite IH. apply putchard_preserves. exact Hfr.
  - intros G. induction Xs as [| X Xs IH]; intros p.
    + simpl. rewrite app_nil_r. repeat split.
    + destruct (exec_putchard_each_cons h X Xs p) as [_ ->].
      destruct (IH (world (exec (putchard h X) p)))
        as (Hs & Hin & Herr & Hc).
      rewrite Hs, Hin, Herr.
      rewrite libc_putchard_settings, !libc_putchard_other by reflexivity.
      repeat split. intros Hw.
      rewrite Hc by (rewrite libc_putchard_writable; exact Hw).
      rewrite (libc_putchard_contents h X p Hw), <- app_assoc. reflexivity.
Qed.

Lemma putchard_each_in_order_witness :
  (files (world (exec (putchard_each host_indefinite
                         [72%float; 105.5%float; 10%float]) closed_process))
     stdin,
   files (world (exec (putchard_each host_indefinite
                         [72%float; 105.5%float; 10%float]) closed_process))
     stderr)
  = (files closed_process stdin, files closed_process stderr)
  /\ contents
       (files (world (exec (putchard_each host_indefinite
                              [72%float; 105.5%float; 10%float]) open_process))
          stdout)
     = [62; 104; 105; 72; 105; 10].
Proof.
  split.
  - apply (proj1 (proj2 (putchard_each_in_order host_indefinite
                           [72%float; 105.5%float; 10%float]))
             (process unit) (libc unit) (FILE * FILE)%type
             (fun p => (files p stdin, files p stderr))).
    intros c w Hc. apply libc_stdout_call_keeps_others. exact Hc.
  - apply (proj2 (proj2 (putchard_each_in_order host_indefinite
                           [72%float; 105.5%float; 10%float]))
             unit open_process).
    reflexivity.
Defined.

(** X6: when the host environment takes the data, after one or more calls
    in sequence nothing is left in the buffer: everything written to
    standard output before, followed by the bytes of all the calls in call
    order, has been delivered, whatever the buffering mode and the buffer
    size. *)
Theorem putchard_each_delivered
  (h : Host) (G : Type) (Xs : list double) (X : double) (p : process G) :
  writable (files p stdout) = true ->
  unwritten (files (world (exec (putchard_each h (X :: Xs)) p)) stdout) = []
  /\ delivered (files (world (exec (putchard_each h (X :: Xs)) p)) stdout)
     = contents (files p stdout) ++ map (putchard_byte h) (X :: Xs).
Proof.
  revert X p. induction Xs as [| X' Xs IH]; intros X p Hw.
  - destruct (exec_putchard_each_cons h X [] p) as [_ ->].
    change (world (exec (putchard_each h []) (world (exec (putchard h X) p))))
      with (world (exec (putchard h X) p)).
    rewrite libc_putchard_stdout.
    apply putc_then_flush_delivers. exact Hw.
  - destruct (exec_putchard_each_cons h X (X' :: Xs) p) as [_ ->].
    assert (Hw' : writable (files (world (exec (putchard h X) p)) stdout)
                  = true)
      by (rewrite libc_putchard_writable; exact Hw).
    destruct (IH X' _ Hw') as [Hu Hd]. split; [exact Hu |].
    rewrite Hd, (libc_putchard_contents h X p Hw), <- app_assoc.
    reflexivity.
Qed.

Lemma putchard_each_delivered_witness :
  unwritten
    (files (world (exec (putchard_each host_indefinite
                           [72%float; 105.5%float; 10%float]) open_process))
       stdout) = []
  /\ delivered
       (files (world (exec (putchard_each host_indefinite
                              [72%float; 105.5%float; 10%float]) open_process))
          stdout) = [62; 104; 105; 72; 105; 10].
Proof.
  apply (putchard_each_delivered host_indefinite unit
           [105.5%float; 10%float] 72%float open_process).
  reflexivity.
Defined.

(** [trunc_toward_zero] at -1.5, whose integer part is -1 and not -2. *)
Lemma trunc_toward_zero_witness :
  Z.abs (-1) * 2 ^ (- (-1)) <= Z.pos 3 < (Z.abs (-1) + 1) * 2 ^ (- (-1))
  /\ -1 <= 0.
Proof.
  apply (trunc_toward_zero true 3 (-1) (-1)).
  - lia.
  - reflexivity.
Defined.
